(** * The user endpoint bindings of the payment SDK

    A shallow embedding of the [user] module (sixteen functions that each
    build a path and an optional query or body and hand them to the [get]
    or [post] method of an API client) and of the package's [index.js].

    An evaluation either completes normally or throws, and it threads
    the state of the outside world, which only the transport touches.

    What the embedding fixes:
    - the handle [api] is an object with callable [get] and [post];
    - a parameter interpolated into a path is a string, as the signatures
      document it, so the template literal is a concatenation;
    - an object is a plain one, inheriting from an [Object.prototype]
      that is as the language defines it, and is given as the finite
      map of its own enumerable data properties (no getters, no
      property order);
    - strings are sequences of one-byte characters. *)

From Stdlib Require Import ZArith String.
From stdpp Require Import base option list strings pretty gmap fin_maps.

Open Scope string_scope.
Open Scope list_scope.

(** ** Values *)

(** The data a caller can hand to a binding.  Numbers are the
    integer-valued ones; no binding computes with them.  An object is
    the finite map of its own enumerable data properties. *)
#[warnings="-register-all"]
Inductive value : Type :=
| VUndefined
| VNull
| VBool (b : bool)
| VNum (n : Z)
| VStr (s : string)
| VObj (props : gmap string value).

Inductive error : Type :=
| TypeError.

(** How the evaluation of an expression or of a call ends. *)
Inductive completion (A : Type) : Type :=
| Normal (a : A)
| Throw (e : error).

Arguments Normal {A} a.
Arguments Throw {A} e.

Inductive method : Type :=
| GET
| POST.

(** One call on the transport: the method invoked, its first argument
    (the path) and its second argument, [None] when the call passes a
    single argument. *)
Record call : Type := Call {
  c_method : method;
  c_path : string;
  c_arg : option value
}.

(** ** Evaluation *)

Section Evaluation.

Context {W R : Type}.

(** A computation over the world [W]. *)
Definition js (A : Type) : Type := W -> completion A * W.

Definition ret {A : Type} (a : A) : js A :=
  fun w => (Normal a, w).

Definition throw {A : Type} (e : error) : js A :=
  fun w => (Throw e, w).

Definition bind {A B : Type} (m : js A) (k : A -> js B) : js B :=
  fun w =>
    match m w with
    | (Normal a, w') => k a w'
    | (Throw e, w') => (Throw e, w')
    end.

(** The API client: the own data properties of the handle, and its two
    methods.  A method receives the path and, when the call passes one,
    a second argument; its result is the deferred value [R]. *)
Record Api : Type := {
  api_fields : gmap string value;
  api_get : string -> option value -> js R;
  api_post : string -> option value -> js R
}.

(** [o.name]: a property read.  Reading a property of [undefined] or
    [null] throws a TypeError; a plain object yields its own property
    or, as [Object.prototype] has none of the names used here,
    [undefined]; a primitive has no property of those names either. *)
Definition get_prop (o : value) (name : string) : js value :=
  match o with
  | VUndefined | VNull => throw TypeError
  | VObj props => ret (default VUndefined (props !! name))
  | VBool _ | VNum _ | VStr _ => ret VUndefined
  end.

(** [function f(.., p = init, ..)]: the initialiser is evaluated only
    when the argument is [undefined] (omitted or passed as such). *)
Definition default_param (arg : value) (init : js value) : js value :=
  match arg with
  | VUndefined => init
  | _ => ret arg
  end.

End Evaluation.

Arguments js : clear implicits.
Arguments Api : clear implicits.

Notation "x <- m ;; k" := (bind m (fun x => k))
  (at level 100, m at next level, right associativity, only parsing).

(** ** [Object.assign] *)

(** The own enumerable properties [Object.assign] copies from a source:
    those of an object, the indexed characters of a string, none for the
    other primitives ([undefined] and [null] sources are skipped). *)
Definition own_props (source : value) : gmap string value :=
  match source with
  | VObj props => props
  | VStr s =>
      list_to_map
        (imap (fun i ch => (pretty i, VStr (String ch EmptyString)))
              (list_ascii_of_string s))
  | VUndefined | VNull | VBool _ | VNum _ => ∅
  end.

(** [Object.assign] writes each property with an ordinary assignment
    [target[key] = value].  For every name but [__proto__] that makes an
    own property of the target.  For [__proto__] it depends on what the
    target inherits at that moment, so the prototype of the target is
    followed along. *)
Inductive prototype : Type :=
| ObjectPrototype
| NullPrototype
| PlainPrototype (own : gmap string value).

(** The setter of [Object.prototype.__proto__]: an object or [null]
    becomes the prototype, anything else is ignored. *)
Definition set_prototype (proto : prototype) (v : value) : prototype :=
  match v with
  | VObj own => PlainPrototype own
  | VNull => NullPrototype
  | _ => proto
  end.

(** An assignment to [__proto__] on an object without an own property
    of that name reaches the setter of [Object.prototype] unless the
    chain ends before it ([null]) or a data property of that name is
    found first (on a plain object, which inherits from
    [Object.prototype]). *)
Definition reaches_setter (proto : prototype) : bool :=
  match proto with
  | ObjectPrototype => true
  | NullPrototype => false
  | PlainPrototype own =>
      match own !! "__proto__" with
      | Some _ => false
      | None => true
      end
  end.

(** [target.__proto__ = v]. *)
Definition assign_proto (target : gmap string value * prototype) (v : value)
  : gmap string value * prototype :=
  let '(own, proto) := target in
  match own !! "__proto__" with
  | Some _ => (<["__proto__" := v]> own, proto)
  | None =>
      if reaches_setter proto
      then (own, set_prototype proto v)
      else (<["__proto__" := v]> own, proto)
  end.

(** One source copied onto the target. *)
Definition assign_source (target : gmap string value * prototype)
    (source : value) : gmap string value * prototype :=
  let props := own_props source in
  let target' := (delete "__proto__" props ∪ fst target, snd target) in
  match props !! "__proto__" with
  | Some v => assign_proto target' v
  | None => target'
  end.

(** [Object.assign(target, ...sources)] for a target that inherits from
    [Object.prototype], such as [{}]: sources are copied from left to
    right, a later property replacing an earlier one of the same name.
    The result is the target's own properties; the prototype it ends
    with is not part of a value. *)
Definition object_assign (target : gmap string value) (sources : list value)
  : gmap string value :=
  fst (foldl assign_source (target, ObjectPrototype) sources).

(** ** The [user] module *)

Module User.

Section Bindings.

Context {W R : Type}.

(** Path parameters are strings, as the signatures document them, so a
    template literal is a concatenation.  The other parameters are any
    value; an omitted one is [undefined].  The three functions whose
    [redirectUri] has the initialiser [this.redirectUri] also take the
    [this] of the call: [undefined] for a plain call in strict mode, the
    receiver for a method call. *)

Definition me (api : Api W R) : js W R :=
  api_get api "/me" None.

Definition signin (this : value) (api : Api W R)
    (identifier redirectUri context : value) : js W R :=
  redirectUri <- default_param redirectUri (get_prop this "redirectUri") ;;
  api_post api "/api/2/signin"
    (Some (VObj {[ "identifier" := identifier;
                   "redirectUri" := redirectUri;
                   "context" := context ]})).

Definition user (api : Api W R) (properties : value) : js W R :=
  api_post api "/api/2/user" (Some properties).

Definition signup (this : value) (api : Api W R)
    (email password redirectUri : value) : js W R :=
  redirectUri <- default_param redirectUri (get_prop this "redirectUri") ;;
  api_post api "/api/2/signup"
    (Some (VObj {[ "email" := email;
                   "password" := password;
                   "redirectUri" := redirectUri ]})).

Definition signupJwt (api : Api W R) (jwt : value) : js W R :=
  api_post api "/api/2/signup_jwt" (Some (VObj {[ "jwt" := jwt ]})).

Definition get (api : Api W R) (userId : string) : js W R :=
  api_get api ("/api/2/user/" +:+ userId) None.

Definition update (api : Api W R) (userId : string) (properties : value)
  : js W R :=
  api_post api ("/api/2/user/" +:+ userId) (Some properties).

Definition getAll (api : Api W R) (criteria filters : value) : js W R :=
  api_get api "/api/2/users"
    (Some (VObj (object_assign ∅ [criteria; filters]))).

Definition search (api : Api W R) (query : value) : js W R :=
  api_get api "/api/2/search/users" (Some query).

Definition searchFullText (api : Api W R) (query : string) : js W R :=
  api_get api ("/api/2/search/users/" +:+ query) None.

Definition triggerVerify (this : value) (api : Api W R)
    (userId trigger : string) (redirectUri : value) : js W R :=
  redirectUri <- default_param redirectUri (get_prop this "redirectUri") ;;
  api_get api ("/user/" +:+ userId +:+ "/trigger/" +:+ trigger)
    (Some (VObj {[ "redirectUri" := redirectUri ]})).

Definition getMailHistory (api : Api W R) (id email : value) : js W R :=
  api_get api "/mail" (Some (VObj {[ "id" := id; "email" := email ]})).

Definition getLevel (api : Api W R) (userId : string) : js W R :=
  api_get api ("/user/" +:+ userId +:+ "/level") None.

Definition isConnected (api : Api W R) (userId : string) : js W R :=
  api_get api ("/user/" +:+ userId +:+ "/connected") None.

Definition getAllAgreements (api : Api W R) (userId : string) : js W R :=
  api_get api ("/api/2/user/" +:+ userId +:+ "/agreements") None.

Definition acceptAgreements (api : Api W R) (userId : string) : js W R :=
  api_post api ("/user/" +:+ userId +:+ "/agreements/accept") None.

End Bindings.

(** The sixteen functions, as names. *)
Inductive binding : Type :=
| Me | Signin | User | Signup | SignupJwt | Get | Update | GetAll
| SearchUsers | SearchFullText | TriggerVerify | GetMailHistory | GetLevel
| IsConnected | GetAllAgreements | AcceptAgreements.

(** [module.exports] of the module. *)
Definition exports : gmap string binding :=
  list_to_map
    [ ("me", Me); ("signin", Signin); ("user", User); ("signup", Signup);
      ("signupJwt", SignupJwt); ("get", Get); ("update", Update);
      ("getAll", GetAll); ("search", SearchUsers);
      ("searchFullText", SearchFullText); ("triggerVerify", TriggerVerify);
      ("getMailHistory", GetMailHistory); ("getLevel", GetLevel);
      ("isConnected", IsConnected); ("getAllAgreements", GetAllAgreements);
      ("acceptAgreements", AcceptAgreements) ].

(** The HTTP method each function's documentation names (the endpoint
    its [@see] link points to). *)
Definition declared_method (b : binding) : method :=
  match b with
  | Me | Get | GetAll | SearchUsers | SearchFullText | TriggerVerify
  | GetMailHistory | GetLevel | IsConnected | GetAllAgreements => GET
  | Signin | User | Signup | SignupJwt | Update | AcceptAgreements => POST
  end.

End User.

(** ** Invocations *)

(** One call of a binding: which function, with which arguments.  The
    API handle and the [this] of the call are given to [invoke]. *)
Inductive invocation : Type :=
| InvMe
| InvSignin (identifier redirectUri context : value)
| InvUser (properties : value)
| InvSignup (email password redirectUri : value)
| InvSignupJwt (jwt : value)
| InvGet (userId : string)
| InvUpdate (userId : string) (properties : value)
| InvGetAll (criteria filters : value)
| InvSearch (query : value)
| InvSearchFullText (query : string)
| InvTriggerVerify (userId trigger : string) (redirectUri : value)
| InvGetMailHistory (id email : value)
| InvGetLevel (userId : string)
| InvIsConnected (userId : string)
| InvGetAllAgreements (userId : string)
| InvAcceptAgreements (userId : string).

Definition binding_of (i : invocation) : User.binding :=
  match i with
  | InvMe => User.Me
  | InvSignin _ _ _ => User.Signin
  | InvUser _ => User.User
  | InvSignup _ _ _ => User.Signup
  | InvSignupJwt _ => User.SignupJwt
  | InvGet _ => User.Get
  | InvUpdate _ _ => User.Update
  | InvGetAll _ _ => User.GetAll
  | InvSearch _ => User.SearchUsers
  | InvSearchFullText _ => User.SearchFullText
  | InvTriggerVerify _ _ _ => User.TriggerVerify
  | InvGetMailHistory _ _ => User.GetMailHistory
  | InvGetLevel _ => User.GetLevel
  | InvIsConnected _ => User.IsConnected
  | InvGetAllAgreements _ => User.GetAllAgreements
  | InvAcceptAgreements _ => User.AcceptAgreements
  end.

Definition invoke {W R : Type} (this : value) (api : Api W R)
    (i : invocation) : js W R :=
  match i with
  | InvMe => User.me api
  | InvSignin identifier redirectUri context =>
      User.signin this api identifier redirectUri context
  | InvUser properties => User.user api properties
  | InvSignup email password redirectUri =>
      User.signup this api email password redirectUri
  | InvSignupJwt jwt => User.signupJwt api jwt
  | InvGet userId => User.get api userId
  | InvUpdate userId properties => User.update api userId properties
  | InvGetAll criteria filters => User.getAll api criteria filters
  | InvSearch query => User.search api query
  | InvSearchFullText query => User.searchFullText api query
  | InvTriggerVerify userId trigger redirectUri =>
      User.triggerVerify this api userId trigger redirectUri
  | InvGetMailHistory id email => User.getMailHistory api id email
  | InvGetLevel userId => User.getLevel api userId
  | InvIsConnected userId => User.isConnected api userId
  | InvGetAllAgreements userId => User.getAllAgreements api userId
  | InvAcceptAgreements userId => User.acceptAgreements api userId
  end.

(** The call [c] made on the handle [api]. *)
Definition perform {W R : Type} (api : Api W R) (c : call) : js W R :=
  match c_method c with
  | GET => api_get api (c_path c) (c_arg c)
  | POST => api_post api (c_path c) (c_arg c)
  end.

(** ** A recording transport *)

(** A mock handle whose world is the log of the calls made on it so far.
    Each call is appended to the log and answered by [respond], which
    sees the log, so it can hand out a fresh deferred value per call. *)
Definition record_call {R : Type} (respond : list call -> call -> R)
    (c : call) : js (list call) R :=
  fun log => (Normal (respond log c), log ++ [c]).

Definition mock {R : Type} (respond : list call -> call -> R)
    (fields : gmap string value) : Api (list call) R :=
  {| api_fields := fields;
     api_get path arg := record_call respond (Call GET path arg);
     api_post path arg := record_call respond (Call POST path arg) |}.

(** The calls one invocation makes, read off a recording transport that
    starts with an empty log. *)
Definition issued (this : value) (i : invocation) : list call :=
  snd (invoke this (mock (fun _ _ => tt) ∅) i []).

(** The same computation run twice in a row, the second run in the world
    the first one left, whatever way the first one ended. *)
Definition twice {W A : Type} (m : js W A)
  : W -> (completion A * completion A) * W :=
  fun w =>
    let '(first, w1) := m w in
    let '(second, w2) := m w1 in
    ((first, second), w2).

(** ** When the [this.redirectUri] initialiser throws *)

Definition nullish (v : value) : bool :=
  match v with
  | VUndefined | VNull => true
  | _ => false
  end.

Definition is_undefined (v : value) : bool :=
  match v with
  | VUndefined => true
  | _ => false
  end.

(** The invocation evaluates [this.redirectUri]: it is one of the three
    functions with that initialiser, and the argument is [undefined]. *)
Definition reads_this (i : invocation) : bool :=
  match i with
  | InvSignin _ redirectUri _
  | InvSignup _ _ redirectUri
  | InvTriggerVerify _ _ redirectUri => is_undefined redirectUri
  | _ => false
  end.

Definition default_throws (this : value) (i : invocation) : bool :=
  reads_this i && nullish this.

(** ** Where each declared parameter goes *)

(** The descriptor of a binding gives every parameter of the signature
    one slot: the path, or the second argument of the call (the query of
    a [get], the body of a [post]).  In the second argument a parameter
    is a named entry of the object, the whole argument, or one of the
    mappings merged into it. *)
Inductive param : Type :=
| Segment (s : string)
| Entry (key : string) (v : value)
| Whole (v : value)
| Source (v : value).

(** The parameters of a call after [api], in the order of the signature. *)
Definition params (i : invocation) : list param :=
  match i with
  | InvMe => []
  | InvSignin identifier redirectUri context =>
      [Entry "identifier" identifier; Entry "redirectUri" redirectUri;
       Entry "context" context]
  | InvUser properties => [Whole properties]
  | InvSignup email password redirectUri =>
      [Entry "email" email; Entry "password" password;
       Entry "redirectUri" redirectUri]
  | InvSignupJwt jwt => [Entry "jwt" jwt]
  | InvGet userId => [Segment userId]
  | InvUpdate userId properties => [Segment userId; Whole properties]
  | InvGetAll criteria filters => [Source criteria; Source filters]
  | InvSearch query => [Whole query]
  | InvSearchFullText query => [Segment query]
  | InvTriggerVerify userId trigger redirectUri =>
      [Segment userId; Segment trigger; Entry "redirectUri" redirectUri]
  | InvGetMailHistory id email => [Entry "id" id; Entry "email" email]
  | InvGetLevel userId => [Segment userId]
  | InvIsConnected userId => [Segment userId]
  | InvGetAllAgreements userId => [Segment userId]
  | InvAcceptAgreements userId => [Segment userId]
  end.


Definition payload_params (i : invocation) : list param :=
  omap (fun p => match p with Segment _ => None | _ => Some p end) (params i).




(** ** The package entry point *)

Section Index.

(** [require] resolves a module path to that module's exports.  The five
    modules [index.js] loads are other files of the package. *)
Context {M : Type} (require : string -> M).

Definition campaign : M := require "./lib/campaign".
Definition paylink : M := require "./lib/paylink".
Definition product : M := require "./lib/product".
Definition subscription : M := require "./lib/subscription".
Definition voucher : M := require "./lib/voucher".

(** [module.exports] of [index.js]. *)
Definition index_exports : gmap string M :=
  {[ "campaign" := campaign; "paylink" := paylink; "product" := product;
     "subscription" := subscription; "voucher" := voucher ]}.

End Index.

(** ** Statements about one run on the recording transport *)

(** The invocation makes exactly one call, of the documented method. *)
Definition exactly_one_call (this : value) (i : invocation) : Prop :=
  ∃ c, issued this i = [c] ∧
       c_method c = User.declared_method (binding_of i).

(** Evaluating the invocation raises no error. *)
Definition raises_no_error (this : value) (i : invocation) : Prop :=
  ∀ e, fst (invoke this (mock (fun _ _ => tt) ∅) i []) ≠ Throw e.

(** Two invocations in a row make two calls. *)
Definition two_calls (this : value) (i : invocation) : Prop :=
  ∃ c1 c2, snd (twice (invoke this (mock (fun _ _ => tt) ∅) i) []) = [c1; c2].

(** The run ended normally after a single [post] whose body is an object
    with the given [redirectUri]. *)
Definition posts_redirect {R : Type} (run : completion R * list call)
    (uri : value) : Prop :=
  ∃ r path body,
    run = (Normal r, [Call POST path (Some (VObj body))]) ∧
    body !! "redirectUri" = Some uri.

(** The query is the merge of the two mappings, name by name, the
    second one winning. *)
Definition merged_key_by_key (criteria filters query : gmap string value)
  : Prop :=
  ∀ k, query !! k = match filters !! k with
                    | Some x => Some x
                    | None => criteria !! k
                    end.


(** The handle of the examples: a recording transport that answers
    every call with [tt] and stores [redirectUri: "https://x"]. *)
Definition configured_api : Api (list call) unit :=
  mock (fun _ _ => tt) {[ "redirectUri" := VStr "https://x" ]}.

(** ** Several calls in a row *)

(** Consecutive statements that each call a binding on the same handle,
    with the same [this]: the results are collected in order, and a
    throw ends the run there. *)
Fixpoint run_all {W R : Type} (this : value) (api : Api W R)
    (calls : list invocation) : js W (list R) :=
  match calls with
  | [] => ret []
  | i :: rest =>
      r <- invoke this api i ;;
      rs <- run_all this api rest ;;
      ret (r :: rs)
  end.

(** The names a binding writes in the object literal it passes as the
    second argument, in the order of the signature. *)
Definition entry_keys (i : invocation) : list string :=
  omap (fun p => match p with Entry key _ => Some key | _ => None end)
       (params i).

(** ** Tactics *)

(** Closes [∃ c, issued .. = [c] ∧ c_method c = .. ∧ ∀ .., .. = perform ..]
    once the invocation is evaluated far enough to show its call. *)
Ltac one_call :=
  eexists (Call _ _ _); split; [reflexivity |];
  split; [reflexivity |]; intros; reflexivity.

(** Evaluates the run behind [H : issued this i = [c]]: closes the goal
    when the run made no call, and replaces [c] by the call otherwise. *)
Ltac read_issued H :=
  unfold issued in H; simpl in H;
  first [ discriminate H | injection H as <- ].

(** * Properties *)

(** ** The calls of the sixteen bindings, on sample arguments *)

Example me_call : issued VUndefined InvMe = [Call GET "/me" None].
Proof. reflexivity. Qed.

Example signin_call_explicit :
  issued VUndefined (InvSignin (VStr "a@b.com") (VStr "https://y") VUndefined) =
  [Call POST "/api/2/signin"
     (Some (VObj {[ "identifier" := VStr "a@b.com";
                    "redirectUri" := VStr "https://y";
                    "context" := VUndefined ]}))].
Proof. reflexivity. Qed.

Example signin_call_as_method_of_config :
  issued (VObj {[ "redirectUri" := VStr "https://x" ]})
    (InvSignin (VStr "a@b.com") VUndefined VUndefined) =
  [Call POST "/api/2/signin"
     (Some (VObj {[ "identifier" := VStr "a@b.com";
                    "redirectUri" := VStr "https://x";
                    "context" := VUndefined ]}))].
Proof. reflexivity. Qed.

Example signin_call_null_is_explicit :
  issued VUndefined (InvSignin (VStr "a@b.com") VNull VUndefined) =
  [Call POST "/api/2/signin"
     (Some (VObj {[ "identifier" := VStr "a@b.com";
                    "redirectUri" := VNull;
                    "context" := VUndefined ]}))].
Proof. reflexivity. Qed.

Example user_call :
  issued VUndefined (InvUser (VObj {[ "email" := VStr "a@b.com" ]})) =
  [Call POST "/api/2/user" (Some (VObj {[ "email" := VStr "a@b.com" ]}))].
Proof. reflexivity. Qed.

Example signup_call_plain :
  invoke VUndefined configured_api
    (InvSignup (VStr "a@b.com") VUndefined VUndefined) [] =
  (Throw TypeError, []).
Proof. reflexivity. Qed.

Example signupJwt_call :
  issued VUndefined (InvSignupJwt (VStr "e30.e30.")) =
  [Call POST "/api/2/signup_jwt" (Some (VObj {[ "jwt" := VStr "e30.e30." ]}))].
Proof. reflexivity. Qed.

Example update_call :
  issued VUndefined (InvUpdate "u123" (VObj {[ "name" := VStr "N" ]})) =
  [Call POST "/api/2/user/u123" (Some (VObj {[ "name" := VStr "N" ]}))].
Proof. reflexivity. Qed.

Example search_call :
  issued VUndefined (InvSearch (VObj {[ "email" := VStr "a@b.com" ]})) =
  [Call GET "/api/2/search/users"
     (Some (VObj {[ "email" := VStr "a@b.com" ]}))].
Proof. reflexivity. Qed.

Example searchFullText_call :
  issued VUndefined (InvSearchFullText "john") =
  [Call GET "/api/2/search/users/john" None].
Proof. reflexivity. Qed.

Example triggerVerify_call_null_this :
  invoke VNull configured_api
    (InvTriggerVerify "u123" "emailverification" VUndefined) [] =
  (Throw TypeError, []).
Proof. reflexivity. Qed.

Example triggerVerify_call_as_method_of_module :
  issued (VObj ∅) (InvTriggerVerify "u123" "emailverification" VUndefined) =
  [Call GET "/user/u123/trigger/emailverification"
     (Some (VObj {[ "redirectUri" := VUndefined ]}))].
Proof. reflexivity. Qed.

Example getLevel_call :
  issued VUndefined (InvGetLevel "u123") = [Call GET "/user/u123/level" None].
Proof. reflexivity. Qed.

Example isConnected_call :
  issued VUndefined (InvIsConnected "u123") =
  [Call GET "/user/u123/connected" None].
Proof. reflexivity. Qed.

Example getAllAgreements_call :
  issued VUndefined (InvGetAllAgreements "u123") =
  [Call GET "/api/2/user/u123/agreements" None].
Proof. reflexivity. Qed.

Example acceptAgreements_call :
  issued VUndefined (InvAcceptAgreements "u123") =
  [Call POST "/user/u123/agreements/accept" None].
Proof. reflexivity. Qed.

(** [Object.assign] spreads a string source into its characters and
    skips [undefined]. *)
Example getAll_string_criteria :
  issued VUndefined (InvGetAll (VStr "ab") VUndefined) =
  [Call GET "/api/2/users"
     (Some (VObj {[ "0" := VStr "a"; "1" := VStr "b" ]}))].
Proof. reflexivity. Qed.

(** ** Evaluation lemmas *)

(** Every name but [__proto__] is copied as an own property. *)
Lemma lookup_assign_proto (target : gmap string value * prototype)
    (v : value) (k : string) :
  k ≠ "__proto__" ->
  fst (assign_proto target v) !! k = fst target !! k.
Proof.
  intros Hk. destruct target as [own proto]. unfold assign_proto.
  destruct (own !! "__proto__"); [| destruct (reaches_setter proto)];
    cbn [fst]; by rewrite ?lookup_insert_ne.
Qed.

Lemma lookup_assign_source (target : gmap string value * prototype)
    (source : value) (k : string) :
  k ≠ "__proto__" ->
  fst (assign_source target source) !! k =
  match own_props source !! k with
  | Some x => Some x
  | None => fst target !! k
  end.
Proof.
  intros Hk. unfold assign_source.
  destruct (own_props source !! "__proto__");
    rewrite ?lookup_assign_proto by exact Hk; cbn [fst];
    rewrite lookup_union, lookup_delete_ne by done;
    destruct (own_props source !! k), (fst target !! k); reflexivity.
Qed.

Lemma lookup_object_assign_two (criteria filters : value) (k : string) :
  k ≠ "__proto__" ->
  object_assign ∅ [criteria; filters] !! k =
  match own_props filters !! k with
  | Some x => Some x
  | None => own_props criteria !! k
  end.
Proof.
  intros Hk. unfold object_assign. cbn [foldl].
  rewrite !lookup_assign_source by exact Hk. cbn [fst].
  rewrite lookup_empty.
  destruct (own_props filters !! k), (own_props criteria !! k); reflexivity.
Qed.

(** A source without an own [__proto__] leaves the prototype alone. *)
Lemma assign_source_plain (target : gmap string value * prototype)
    (source : value) :
  own_props source !! "__proto__" = None ->
  assign_source target source = (own_props source ∪ fst target, snd target).
Proof.
  intros Hnone. unfold assign_source. rewrite Hnone.
  by rewrite delete_id.
Qed.

Lemma object_assign_two_plain (criteria filters : value) :
  own_props criteria !! "__proto__" = None ->
  own_props filters !! "__proto__" = None ->
  object_assign ∅ [criteria; filters] = own_props filters ∪ own_props criteria.
Proof.
  intros Hc Hf. unfold object_assign. cbn [foldl].
  rewrite (assign_source_plain _ criteria Hc).
  rewrite (assign_source_plain _ filters Hf). cbn [fst].
  by rewrite (right_id_L ∅ (∪) (own_props criteria)).
Qed.

Lemma perform_mock {R : Type} (respond : list call -> call -> R)
    (fields : gmap string value) (c : call) (log : list call) :
  perform (mock respond fields) c log = (Normal (respond log c), log ++ [c]).
Proof. destruct c as [[] path arg]; reflexivity. Qed.

(** The only failure of a binding's own: the initialiser reads a
    property of a [this] that is [undefined] or [null]. *)
Lemma invoke_throws {W R : Type} (this : value) (api : Api W R)
    (i : invocation) (w : W) :
  default_throws this i = true ->
  invoke this api i w = (Throw TypeError, w).
Proof.
  unfold default_throws.
  destruct i; simpl; try discriminate;
    destruct redirectUri; simpl; try discriminate;
    destruct this; simpl; try discriminate; reflexivity.
Qed.

(** In every other case the binding is one call on the handle, the one
    [issued] reads off the recording transport. *)
Lemma invoke_performs (this : value) (i : invocation) :
  default_throws this i = false ->
  ∃ c, issued this i = [c] ∧
       c_method c = User.declared_method (binding_of i) ∧
       ∀ (W R : Type) (api : Api W R) (w : W),
         invoke this api i w = perform api c w.
Proof.
  unfold default_throws.
  destruct i; simpl; intros Hok; try one_call;
    destruct redirectUri; simpl in Hok; try one_call;
    destruct this; simpl in Hok; try discriminate; one_call.
Qed.

(** ** One call per invocation *)

(** C2, as amended.  On a recording transport, an invocation whose
    [this.redirectUri] initialiser throws ends with a TypeError and
    leaves the log as it was; every other invocation appends exactly one
    call, of the method the binding documents, and returns the
    transport's answer to it.  The call depends on the invocation alone,
    not on the log or on the answers. *)
Theorem invoke_one_call :
  ∀ (this : value) (i : invocation),
    if default_throws this i
    then ∀ (R : Type) (respond : list call -> call -> R)
           (fields : gmap string value) (log : list call),
           invoke this (mock respond fields) i log = (Throw TypeError, log)
    else ∃ c, c_method c = User.declared_method (binding_of i) ∧
           ∀ (R : Type) (respond : list call -> call -> R)
             (fields : gmap string value) (log : list call),
             invoke this (mock respond fields) i log =
             (Normal (respond log c), log ++ [c]).
Proof.
  intros this i.
  destruct (default_throws this i) eqn:Hd.
  - intros R respond fields log. by apply invoke_throws.
  - destruct (invoke_performs this i Hd) as (c & _ & Hm & Hrun).
    exists c. split; [exact Hm |].
    intros R respond fields log.
    rewrite Hrun. apply perform_mock.
Qed.

(** C2, as stated, fails: a plain call [signin(api, "a@b.com")] has
    [this] undefined, throws while evaluating the initialiser of
    [redirectUri], and makes no call at all. *)
Lemma signin_plain_call_makes_no_call :
  ¬ exactly_one_call VUndefined
      (InvSignin (VStr "a@b.com") VUndefined VUndefined).
Proof. intros (c & Hc & _). vm_compute in Hc. discriminate Hc. Qed.

(** ** Passthrough *)

(** C3.  Against any handle, a binding that gets past its parameter
    initialisers is one call on the handle and nothing else: it ends the
    way that call ends, with the value that call returns, in the world
    that call leaves.  The only other outcome is the TypeError of the
    initialiser, which returns nothing. *)
Theorem invoke_passthrough :
  ∀ (this : value) (i : invocation),
    if default_throws this i
    then ∀ (W R : Type) (api : Api W R) (w : W),
           invoke this api i w = (Throw TypeError, w)
    else ∃ c, c_method c = User.declared_method (binding_of i) ∧
           ∀ (W R : Type) (api : Api W R) (w : W),
             invoke this api i w = perform api c w.
Proof.
  intros this i.
  destruct (default_throws this i) eqn:Hd.
  - intros W R api w. by apply invoke_throws.
  - destruct (invoke_performs this i Hd) as (c & _ & Hm & Hrun).
    exists c. split; [exact Hm | exact Hrun].
Qed.

(** ** Errors of the binding itself *)

(** C6, as amended.  With a transport whose methods return, evaluating a
    binding raises an error exactly when [signin], [signup] or
    [triggerVerify] is called without a [redirectUri] while [this] is
    [undefined] or [null]. *)
Theorem invoke_raises_iff :
  ∀ (R : Type) (respond : list call -> call -> R)
    (fields : gmap string value) (this : value) (i : invocation)
    (log : list call),
    (∃ e log', invoke this (mock respond fields) i log = (Throw e, log'))
    ↔ default_throws this i = true.
Proof.
  intros R respond fields this i log.
  destruct (default_throws this i) eqn:Hd; split.
  - reflexivity.
  - intros _. exists TypeError, log. by apply invoke_throws.
  - intros (e & log' & He).
    destruct (invoke_performs this i Hd) as (c & _ & _ & Hrun).
    rewrite Hrun, perform_mock in He. discriminate He.
  - discriminate.
Qed.

(** C6, as stated, fails: the plain call [signin(api, "a@b.com")]
    throws a TypeError. *)
Lemma signin_plain_call_throws :
  ¬ raises_no_error VUndefined
      (InvSignin (VStr "a@b.com") VUndefined VUndefined).
Proof. intros Hno. apply (Hno TypeError). reflexivity. Qed.

(** ** No memoisation *)

(** C7, as amended.  Two invocations in a row with the same arguments:
    when the initialiser throws, both throw and the log is unchanged;
    otherwise the log grows by the same call twice, and the second value
    is the transport's answer to the second call. *)
Theorem invoke_twice :
  ∀ (this : value) (i : invocation),
    if default_throws this i
    then ∀ (R : Type) (respond : list call -> call -> R)
           (fields : gmap string value) (log : list call),
           twice (invoke this (mock respond fields) i) log =
           ((Throw TypeError, Throw TypeError), log)
    else ∃ c, c_method c = User.declared_method (binding_of i) ∧
           ∀ (R : Type) (respond : list call -> call -> R)
             (fields : gmap string value) (log : list call),
             twice (invoke this (mock respond fields) i) log =
             ((Normal (respond log c), Normal (respond (log ++ [c]) c)),
              log ++ [c; c]).
Proof.
  intros this i. unfold twice.
  destruct (default_throws this i) eqn:Hd.
  - intros R respond fields log. by rewrite !invoke_throws.
  - destruct (invoke_performs this i Hd) as (c & _ & Hm & Hrun).
    exists c. split; [exact Hm |].
    intros R respond fields log.
    rewrite Hrun, perform_mock. cbn iota.
    rewrite Hrun, perform_mock. cbn iota.
    by rewrite <- app_assoc.
Qed.

(** C7, as stated, fails: two plain calls [signin(api, "a@b.com")] both
    throw before reaching the transport. *)
Lemma signin_twice_makes_no_call :
  ¬ two_calls VUndefined (InvSignin (VStr "a@b.com") VUndefined VUndefined).
Proof. intros (c1 & c2 & Hc). vm_compute in Hc. discriminate Hc. Qed.

(** ** The default of [redirectUri] *)

(** C1, as amended.  [signin] without a [redirectUri] posts the
    [redirectUri] stored on the [this] object of the call; with a
    [redirectUri] it posts that one, whatever [this] is. *)
Theorem signin_redirect_default :
  ∀ (R : Type) (respond : list call -> call -> R)
    (fields this_props : gmap string value)
    (uri identifier context explicit : value) (log : list call),
    this_props !! "redirectUri" = Some uri ->
    explicit ≠ VUndefined ->
    (let c := Call POST "/api/2/signin"
                (Some (VObj {[ "identifier" := identifier;
                               "redirectUri" := uri;
                               "context" := context ]})) in
     User.signin (VObj this_props) (mock respond fields)
       identifier VUndefined context log =
     (Normal (respond log c), log ++ [c]))
    ∧
    (let c := Call POST "/api/2/signin"
                (Some (VObj {[ "identifier" := identifier;
                               "redirectUri" := explicit;
                               "context" := context ]})) in
     ∀ this, User.signin this (mock respond fields)
               identifier explicit context log =
             (Normal (respond log c), log ++ [c])).
Proof.
  intros R respond fields this_props uri identifier context explicit log
    Hstored Hexplicit.
  split.
  - unfold User.signin, bind, default_param, get_prop, ret.
    rewrite Hstored. reflexivity.
  - intros this. destruct explicit; try reflexivity.
    by destruct Hexplicit.
Qed.

(** With [this] the handle itself, which stores "https://x": the default
    is posted; and an explicit "https://y" is posted instead. *)
Lemma signin_redirect_default_witness :
  User.signin (VObj (api_fields configured_api)) configured_api
    (VStr "a@b.com") VUndefined (VStr "ctx") [] =
  (Normal tt,
   [Call POST "/api/2/signin"
      (Some (VObj {[ "identifier" := VStr "a@b.com";
                     "redirectUri" := VStr "https://x";
                     "context" := VStr "ctx" ]}))])
  ∧
  ∀ this, User.signin this configured_api
            (VStr "a@b.com") (VStr "https://y") (VStr "ctx") [] =
          (Normal tt,
           [Call POST "/api/2/signin"
              (Some (VObj {[ "identifier" := VStr "a@b.com";
                             "redirectUri" := VStr "https://y";
                             "context" := VStr "ctx" ]}))]).
Proof.
  apply (signin_redirect_default unit (fun _ _ => tt)
           {[ "redirectUri" := VStr "https://x" ]}
           {[ "redirectUri" := VStr "https://x" ]}
           (VStr "https://x") (VStr "a@b.com") (VStr "ctx")
           (VStr "https://y") []).
  - reflexivity.
  - discriminate.
Defined.

(** C1, as stated, fails.  The handle stores "https://x", yet the plain
    call [signin(api, "a@b.com", undefined, ctx)] throws without posting,
    and the same call made as a method of an object without a
    [redirectUri] posts [redirectUri: undefined]. *)
Lemma signin_default_not_from_api :
  api_fields configured_api !! "redirectUri" = Some (VStr "https://x") ∧
  ¬ posts_redirect
      (User.signin VUndefined configured_api
         (VStr "a@b.com") VUndefined (VStr "ctx") [])
      (VStr "https://x") ∧
  ¬ posts_redirect
      (User.signin (VObj ∅) configured_api
         (VStr "a@b.com") VUndefined (VStr "ctx") [])
      (VStr "https://x").
Proof.
  split; [reflexivity |]. split.
  - intros (r & path & body & Hrun & _). discriminate Hrun.
  - intros (r & path & body & Hrun & Hbody).
    injection Hrun as _ _ <-. discriminate Hbody.
Qed.

(** ** The merged query of [getAll] *)

(** C4, as amended.  For objects [criteria] and [filters], [getAll]
    makes one [get] on /api/2/users whose query has, under every name
    but [__proto__], the property of [filters] when it has one and that
    of [criteria] otherwise; when neither has an own [__proto__], that
    holds under every name. *)
Theorem getAll_merged_query :
  ∀ (R : Type) (respond : list call -> call -> R)
    (fields criteria filters : gmap string value) (log : list call),
    ∃ query : gmap string value,
      (let c := Call GET "/api/2/users" (Some (VObj query)) in
       User.getAll (mock respond fields) (VObj criteria) (VObj filters) log =
       (Normal (respond log c), log ++ [c]))
      ∧ (∀ k, k ≠ "__proto__" →
              query !! k = match filters !! k with
                           | Some x => Some x
                           | None => criteria !! k
                           end)
      ∧ (criteria !! "__proto__" = None → filters !! "__proto__" = None →
         merged_key_by_key criteria filters query).
Proof.
  intros R respond fields criteria filters log.
  exists (object_assign ∅ [VObj criteria; VObj filters]).
  split; [reflexivity |]. split.
  - intros k Hk. by apply (lookup_object_assign_two (VObj criteria)).
  - intros Hc Hf k.
    rewrite (object_assign_two_plain (VObj criteria) (VObj filters) Hc Hf).
    cbn [own_props]. rewrite lookup_union.
    destruct (filters !! k), (criteria !! k); reflexivity.
Qed.

(** C4, as stated, fails at an own property named [__proto__] (as
    [JSON.parse] makes them): [Object.assign] assigns it through the
    accessor of [Object.prototype], so the query has no such property. *)
Lemma getAll_proto_key_not_merged :
  ∃ query,
    issued VUndefined
      (InvGetAll (VObj {[ "__proto__" := VNum 5; "a" := VNum 1 ]})
                 (VObj ∅)) =
    [Call GET "/api/2/users" (Some (VObj query))]
    ∧ query = {[ "a" := VNum 1 ]}
    ∧ ¬ merged_key_by_key {[ "__proto__" := VNum 5; "a" := VNum 1 ]} ∅ query.
Proof.
  eexists. split; [reflexivity |]. split; [reflexivity |].
  intros Hmerged. specialize (Hmerged "__proto__").
  vm_compute in Hmerged. discriminate Hmerged.
Qed.

Example getAll_disjoint_keys :
  issued VUndefined
    (InvGetAll (VObj {[ "a" := VNum 1 ]}) (VObj {[ "b" := VNum 2 ]})) =
  [Call GET "/api/2/users" (Some (VObj {[ "a" := VNum 1; "b" := VNum 2 ]}))].
Proof. reflexivity. Qed.

Example getAll_colliding_keys :
  issued VUndefined
    (InvGetAll (VObj {[ "a" := VNum 1; "c" := VNum 3 ]})
               (VObj {[ "a" := VNum 2 ]})) =
  [Call GET "/api/2/users" (Some (VObj {[ "a" := VNum 2; "c" := VNum 3 ]}))].
Proof. reflexivity. Qed.

(** ** Path interpolation *)

(** C5.  [get] makes one [get] call whose path is "/api/2/user/"
    followed by the user id, and passes no second argument; for "u123"
    the path is /api/2/user/u123. *)
Theorem get_user_path :
  ∀ (R : Type) (respond : list call -> call -> R)
    (fields : gmap string value) (log : list call),
    (∀ userId,
       let c := Call GET ("/api/2/user/" +:+ userId) None in
       User.get (mock respond fields) userId log =
       (Normal (respond log c), log ++ [c]))
    ∧
    (let c := Call GET "/api/2/user/u123" None in
     User.get (mock respond fields) "u123" log =
     (Normal (respond log c), log ++ [c])).
Proof.
  intros R respond fields log. split.
  - intros userId. reflexivity.
  - reflexivity.
Qed.

(** ** No validation *)


Example getMailHistory_both :
  issued VUndefined (InvGetMailHistory (VStr "u123") (VStr "a@b.com")) =
  [Call GET "/mail"
     (Some (VObj {[ "id" := VStr "u123"; "email" := VStr "a@b.com" ]}))].
Proof. reflexivity. Qed.

Example getMailHistory_neither :
  issued VUndefined (InvGetMailHistory VUndefined VUndefined) =
  [Call GET "/mail"
     (Some (VObj {[ "id" := VUndefined; "email" := VUndefined ]}))].
Proof. reflexivity. Qed.

(** ** The package entry point *)

(** C10.  [index.js] exports exactly the five groups, each the module
    of that name; it has no property [user] and none named after a
    function of the user module, all sixteen of which the user module
    itself exports. *)
Theorem index_exports_groups :
  ∀ (M : Type) (require : string -> M),
    dom (index_exports require) =
      ({[ "campaign"; "paylink"; "product"; "subscription"; "voucher" ]}
         : gset string)
    ∧ index_exports require !! "campaign" = Some (require "./lib/campaign")
    ∧ index_exports require !! "paylink" = Some (require "./lib/paylink")
    ∧ index_exports require !! "product" = Some (require "./lib/product")
    ∧ index_exports require !! "subscription" =
        Some (require "./lib/subscription")
    ∧ index_exports require !! "voucher" = Some (require "./lib/voucher")
    ∧ index_exports require !! "user" = None
    ∧ (∀ name b, User.exports !! name = Some b →
                 index_exports require !! name = None)
    ∧ (∀ b : User.binding, ∃ name, User.exports !! name = Some b).
Proof.
  intros M require.
  assert (Hdom : dom (index_exports require) =
            ({[ "campaign"; "paylink"; "product"; "subscription"; "voucher" ]}
               : gset string)).
  { unfold index_exports. rewrite !dom_insert_L, dom_singleton_L. set_solver. }
  split; [exact Hdom |].
  repeat (split; [reflexivity |]).
  split.
  - intros name b Hb.
    apply not_elem_of_dom. rewrite Hdom. intros Hin.
    rewrite !elem_of_union, !elem_of_singleton in Hin.
    destruct Hin as [[[[-> | ->] | ->] | ->] | ->]; discriminate Hb.
  - intros b.
    destruct b;
      [ exists "me" | exists "signin" | exists "user" | exists "signup"
      | exists "signupJwt" | exists "get" | exists "update"
      | exists "getAll" | exists "search" | exists "searchFullText"
      | exists "triggerVerify" | exists "getMailHistory"
      | exists "getLevel" | exists "isConnected"
      | exists "getAllAgreements" | exists "acceptAgreements" ];
      reflexivity.
Qed.

(** ** Parameter routing *)


Lemma string_append_assoc (s1 s2 s3 : string) :
  (s1 +:+ s2) +:+ s3 = s1 +:+ s2 +:+ s3.
Proof.
  induction s1 as [| ch s1 IH]; [reflexivity |].
  change (String ch ((s1 +:+ s2) +:+ s3) = String ch (s1 +:+ s2 +:+ s3)).
  by f_equal.
Qed.







Lemma signin_issued_path (this identifier redirectUri context : value)
    (c : call) :
  issued this (InvSignin identifier redirectUri context) = [c] ->
  c_path c = "/api/2/signin".
Proof. intros Hi. destruct redirectUri, this; read_issued Hi; reflexivity. Qed.

Lemma signup_issued_path (this email password redirectUri : value)
    (c : call) :
  issued this (InvSignup email password redirectUri) = [c] ->
  c_path c = "/api/2/signup".
Proof. intros Hi. destruct redirectUri, this; read_issued Hi; reflexivity. Qed.








(** * Further properties of the bindings *)

(** ** What a binding reads *)

(** X1.  Unless it is [signin], [signup] or [triggerVerify] called
    without a [redirectUri], a binding does not look at [this]: on any
    handle, two calls that differ in [this] alone run the same. *)
Theorem invoke_ignores_this :
  ∀ (this this' : value) (i : invocation),
    reads_this i = false ->
    ∀ (W R : Type) (api : Api W R) (w : W),
      invoke this api i w = invoke this' api i w.
Proof.
  intros this this' i Hi W R api w.
  destruct i; try reflexivity;
    destruct redirectUri; (discriminate Hi || reflexivity).
Qed.

(** [signin] with an explicit [null]: a plain call and a method call on
    a configured object run the same. *)
Lemma invoke_ignores_this_witness :
  invoke VUndefined configured_api
    (InvSignin (VStr "a@b.com") VNull VUndefined) [] =
  invoke (VObj {[ "redirectUri" := VStr "https://x" ]}) configured_api
    (InvSignin (VStr "a@b.com") VNull VUndefined) [].
Proof.
  apply (invoke_ignores_this VUndefined
           (VObj {[ "redirectUri" := VStr "https://x" ]})
           (InvSignin (VStr "a@b.com") VNull VUndefined)).
  reflexivity.
Defined.

(** X2.  A binding uses the handle through [get] and [post] only: two
    handles whose methods agree give the same run, whatever properties
    the handles store. *)
Theorem invoke_ignores_fields :
  ∀ (W R : Type) (api api' : Api W R),
    (∀ path arg w, api_get api path arg w = api_get api' path arg w) ->
    (∀ path arg w, api_post api path arg w = api_post api' path arg w) ->
    ∀ (this : value) (i : invocation) (w : W),
      invoke this api i w = invoke this api' i w.
Proof.
  intros W R api api' Hget Hpost this i w.
  destruct (default_throws this i) eqn:Hd.
  - by rewrite !invoke_throws.
  - destruct (invoke_performs this i Hd) as (c & _ & _ & Hrun).
    rewrite !Hrun. unfold perform.
    destruct (c_method c); [apply Hget | apply Hpost].
Qed.

(** The handle that stores [redirectUri: "https://x"] and one that
    stores nothing. *)
Lemma invoke_ignores_fields_witness :
  invoke (VObj ∅) configured_api
    (InvSignup (VStr "a@b.com") VUndefined VUndefined) [] =
  invoke (VObj ∅) (mock (fun _ _ => tt) ∅)
    (InvSignup (VStr "a@b.com") VUndefined VUndefined) [].
Proof.
  apply (invoke_ignores_fields (list call) unit configured_api
           (mock (fun _ _ => tt) ∅)).
  - reflexivity.
  - reflexivity.
Defined.

(** ** The default of [redirectUri], in the other two bindings *)

(** X3.  [signup] and [triggerVerify] resolve [redirectUri] as [signin]
    does: called without one on a [this] object that stores one, they
    send the stored one (in the body of the POST, in the query of the
    GET); called with one, [null] included, they send it and never read
    [this]. *)
Theorem signup_triggerVerify_redirect_default :
  ∀ (R : Type) (respond : list call -> call -> R)
    (fields this_props : gmap string value) (uri explicit : value)
    (email password : value) (userId trigger : string) (log : list call),
    this_props !! "redirectUri" = Some uri ->
    explicit ≠ VUndefined ->
    (let c := Call POST "/api/2/signup"
                (Some (VObj {[ "email" := email; "password" := password;
                               "redirectUri" := uri ]})) in
     User.signup (VObj this_props) (mock respond fields)
       email password VUndefined log =
     (Normal (respond log c), log ++ [c]))
    ∧
    (let c := Call GET ("/user/" +:+ userId +:+ "/trigger/" +:+ trigger)
                (Some (VObj {[ "redirectUri" := uri ]})) in
     User.triggerVerify (VObj this_props) (mock respond fields)
       userId trigger VUndefined log =
     (Normal (respond log c), log ++ [c]))
    ∧
    (let c := Call POST "/api/2/signup"
                (Some (VObj {[ "email" := email; "password" := password;
                               "redirectUri" := explicit ]})) in
     ∀ this, User.signup this (mock respond fields)
               email password explicit log =
             (Normal (respond log c), log ++ [c]))
    ∧
    (let c := Call GET ("/user/" +:+ userId +:+ "/trigger/" +:+ trigger)
                (Some (VObj {[ "redirectUri" := explicit ]})) in
     ∀ this, User.triggerVerify this (mock respond fields)
               userId trigger explicit log =
             (Normal (respond log c), log ++ [c])).
Proof.
  intros R respond fields this_props uri explicit email password
    userId trigger log Hstored Hexplicit.
  repeat split.
  - unfold User.signup, bind, default_param, get_prop, ret.
    rewrite Hstored. reflexivity.
  - unfold User.triggerVerify, bind, default_param, get_prop, ret.
    rewrite Hstored. reflexivity.
  - intros this. destruct explicit; try reflexivity. by destruct Hexplicit.
  - intros this. destruct explicit; try reflexivity. by destruct Hexplicit.
Qed.

(** A configured object as [this], and an explicit [null]. *)
Lemma signup_triggerVerify_redirect_default_witness :
  User.signup (VObj {[ "redirectUri" := VStr "https://x" ]}) configured_api
    (VStr "a@b.com") VUndefined VUndefined [] =
  (Normal tt,
   [Call POST "/api/2/signup"
      (Some (VObj {[ "email" := VStr "a@b.com"; "password" := VUndefined;
                     "redirectUri" := VStr "https://x" ]}))])
  ∧
  User.triggerVerify (VObj {[ "redirectUri" := VStr "https://x" ]})
    configured_api "u123" "newpassword" VUndefined [] =
  (Normal tt,
   [Call GET "/user/u123/trigger/newpassword"
      (Some (VObj {[ "redirectUri" := VStr "https://x" ]}))])
  ∧
  (∀ this, User.signup this configured_api
             (VStr "a@b.com") VUndefined VNull [] =
           (Normal tt,
            [Call POST "/api/2/signup"
               (Some (VObj {[ "email" := VStr "a@b.com";
                              "password" := VUndefined;
                              "redirectUri" := VNull ]}))]))
  ∧
  (∀ this, User.triggerVerify this configured_api
             "u123" "newpassword" VNull [] =
           (Normal tt,
            [Call GET "/user/u123/trigger/newpassword"
               (Some (VObj {[ "redirectUri" := VNull ]}))])).
Proof.
  apply (signup_triggerVerify_redirect_default unit (fun _ _ => tt)
           {[ "redirectUri" := VStr "https://x" ]}
           {[ "redirectUri" := VStr "https://x" ]}
           (VStr "https://x") VNull (VStr "a@b.com") VUndefined
           "u123" "newpassword" []).
  - reflexivity.
  - discriminate.
Defined.

(** X4.  Whenever reading [this.redirectUri] gives [undefined] (a
    method call on the module object, say), the three bindings called
    without a [redirectUri] do not throw: they make their call with
    [redirectUri: undefined] written in the object. *)
Theorem redirect_default_missing :
  ∀ (R : Type) (respond : list call -> call -> R)
    (fields : gmap string value) (log : list call) (this : value),
    (∀ w : list call,
       get_prop this "redirectUri" w = (Normal VUndefined, w)) ->
    (∀ identifier context,
       let c := Call POST "/api/2/signin"
                  (Some (VObj {[ "identifier" := identifier;
                                 "redirectUri" := VUndefined;
                                 "context" := context ]})) in
       User.signin this (mock respond fields)
         identifier VUndefined context log =
       (Normal (respond log c), log ++ [c]))
    ∧
    (∀ email password,
       let c := Call POST "/api/2/signup"
                  (Some (VObj {[ "email" := email;
                                 "password" := password;
                                 "redirectUri" := VUndefined ]})) in
       User.signup this (mock respond fields)
         email password VUndefined log =
       (Normal (respond log c), log ++ [c]))
    ∧
    (∀ userId trigger,
       let c := Call GET
                  ("/user/" +:+ userId +:+ "/trigger/" +:+ trigger)
                  (Some (VObj {[ "redirectUri" := VUndefined ]})) in
       User.triggerVerify this (mock respond fields)
         userId trigger VUndefined log =
       (Normal (respond log c), log ++ [c])).
Proof.
  intros R respond fields log this Hread.
  repeat split; intros;
    unfold User.signin, User.signup, User.triggerVerify, bind, default_param;
    rewrite Hread; reflexivity.
Qed.

(** [signin] called as a method of a plain object that stores the
    user's name and nothing else. *)
Lemma redirect_default_missing_witness :
  User.signin (VObj {[ "name" := VStr "N" ]}) configured_api
    (VStr "a@b.com") VUndefined VUndefined [] =
  (Normal tt,
   [Call POST "/api/2/signin"
      (Some (VObj {[ "identifier" := VStr "a@b.com";
                     "redirectUri" := VUndefined;
                     "context" := VUndefined ]}))]).
Proof.
  apply (redirect_default_missing unit (fun _ _ => tt)
           {[ "redirectUri" := VStr "https://x" ]} []
           (VObj {[ "name" := VStr "N" ]})).
  intros w. reflexivity.
Defined.

(** ** The shape of the call *)

(** X5.  A binding that builds an object literal always writes every
    name of the literal: the second argument is an object whose
    properties are exactly those names, whether the arguments were
    supplied or omitted. *)
Theorem entries_always_present :
  ∀ (this : value) (i : invocation) (c : call),
    issued this i = [c] ->
    entry_keys i ≠ [] ->
    ∃ m, c_arg c = Some (VObj m) ∧
         dom m = (list_to_set (entry_keys i) : gset string).
Proof.
  intros this i c Hi Hkeys.
  destruct i; cbn [entry_keys params omap list_omap] in *;
    try (by destruct Hkeys).
  all: try (destruct redirectUri; destruct this).
  all: read_issued Hi.
  all: eexists; split; [reflexivity |].
  all: rewrite ?dom_insert_L, dom_singleton_L; set_solver.
Qed.

(** [getMailHistory(api)]: both names are written, with [undefined]. *)
Lemma entries_always_present_witness :
  ∃ m, c_arg (Call GET "/mail"
                (Some (VObj {[ "id" := VUndefined;
                               "email" := VUndefined ]}))) =
       Some (VObj m) ∧
       dom m = (list_to_set ["id"; "email"] : gset string).
Proof.
  apply (entries_always_present VUndefined
           (InvGetMailHistory VUndefined VUndefined)).
  - reflexivity.
  - discriminate.
Defined.

(** X6.  A call passes no second argument exactly when the signature has
    no parameter besides [api] and the path parameters. *)
Theorem no_second_argument_iff :
  ∀ (this : value) (i : invocation) (c : call),
    issued this i = [c] ->
    (c_arg c = None ↔ payload_params i = []).
Proof.
  intros this i c Hi.
  destruct i; cbn [payload_params params omap list_omap].
  all: try (destruct redirectUri; destruct this).
  all: read_issued Hi.
  all: split; intros H; first [ reflexivity | discriminate H ].
Qed.

(** [acceptAgreements] posts without a body; [user] called without
    properties still passes a second argument, [undefined]. *)
Lemma no_second_argument_iff_witness :
  (c_arg (Call POST "/user/u123/agreements/accept" None) = None
   ↔ payload_params (InvAcceptAgreements "u123") = [])
  ∧ (c_arg (Call POST "/api/2/user" (Some VUndefined)) = None
     ↔ payload_params (InvUser VUndefined) = []).
Proof.
  split.
  - apply (no_second_argument_iff VUndefined (InvAcceptAgreements "u123")).
    reflexivity.
  - apply (no_second_argument_iff VUndefined (InvUser VUndefined)).
    reflexivity.
Defined.

(** X7.  Every path a binding sends is absolute, and is /me, /mail, or
    lies under /api/2/ or under /user/. *)
Theorem issued_path_roots :
  ∀ (this : value) (i : invocation) (c : call),
    issued this i = [c] ->
    c_path c = "/me" ∨ c_path c = "/mail" ∨
    (∃ rest, c_path c = "/api/2/" +:+ rest) ∨
    (∃ rest, c_path c = "/user/" +:+ rest).
Proof.
  intros this i c Hi.
  destruct i.
  all: try (destruct redirectUri; destruct this).
  all: read_issued Hi.
  all: cbn [c_path].
  all: first
    [ by left
    | by right; left
    | right; right; left; eexists; reflexivity
    | right; right; right; eexists; reflexivity ].
Qed.

Lemma issued_path_roots_witness :
  "/user/u123/level" = "/me" ∨ "/user/u123/level" = "/mail" ∨
  (∃ rest, "/user/u123/level" = "/api/2/" +:+ rest) ∨
  (∃ rest, "/user/u123/level" = "/user/" +:+ rest).
Proof.
  apply (issued_path_roots VUndefined (InvGetLevel "u123")
           (Call GET "/user/u123/level" None)).
  reflexivity.
Defined.

(** ** Paths without escaping *)

Lemma list_ascii_of_string_append (s t : string) :
  list_ascii_of_string (s +:+ t) =
  list_ascii_of_string s ++ list_ascii_of_string t.
Proof.
  induction s as [| ch s IH]; [reflexivity |].
  change (ch :: list_ascii_of_string (s +:+ t) =
          ch :: (list_ascii_of_string s ++ list_ascii_of_string t)).
  by f_equal.
Qed.

Lemma list_ascii_of_string_inj (s t : string) :
  list_ascii_of_string s = list_ascii_of_string t -> s = t.
Proof.
  intros Heq.
  rewrite <- (string_of_list_ascii_of_string s),
          <- (string_of_list_ascii_of_string t).
  by rewrite Heq.
Qed.

Lemma string_append_cancel_r (s s' t : string) :
  s +:+ t = s' +:+ t -> s = s'.
Proof.
  intros Heq. apply list_ascii_of_string_inj.
  apply (f_equal list_ascii_of_string) in Heq.
  rewrite !list_ascii_of_string_append in Heq.
  by apply app_inv_tail in Heq.
Qed.

(** X9.  Path parameters are interpolated as they are.  A user id that
    ends in /agreements makes [get] send the call of [getAllAgreements];
    and [triggerVerify] sends one and the same call for two different
    splits of the text around /trigger/. *)
Theorem path_params_not_escaped :
  ∀ (W R : Type) (api : Api W R),
    (∀ userId,
       User.get api (userId +:+ "/agreements") =
       User.getAllAgreements api userId)
    ∧
    (∀ this userId first second redirectUri,
       User.triggerVerify this api
         (userId +:+ "/trigger/" +:+ first) second redirectUri =
       User.triggerVerify this api
         userId (first +:+ "/trigger/" +:+ second) redirectUri).
Proof.
  intros W R api. split.
  - intros userId. reflexivity.
  - intros this userId first second redirectUri.
    unfold User.triggerVerify.
    by rewrite !string_append_assoc.
Qed.

Lemma issued_method (this : value) (i : invocation) (c : call) :
  issued this i = [c] ->
  c_method c = User.declared_method (binding_of i).
Proof.
  intros Hi. destruct (default_throws this i) eqn:Hd.
  - unfold issued in Hi. rewrite invoke_throws in Hi by exact Hd.
    discriminate Hi.
  - destruct (invoke_performs this i Hd) as (c0 & Hc0 & Hm & _).
    rewrite Hi in Hc0. by injection Hc0 as ->.
Qed.

(** X8.  Among the bindings that post, the path tells the binding: two
    POST calls with the same path come from the same function, whatever
    the user ids are. *)
Theorem post_path_determines_binding :
  ∀ (this this' : value) (i i' : invocation) (c c' : call),
    issued this i = [c] ->
    issued this' i' = [c'] ->
    c_method c = POST ->
    c_method c' = POST ->
    c_path c = c_path c' ->
    binding_of i = binding_of i'.
Proof.
  intros this this' i i' c c' Hi Hi' Hm Hm' Hp.
  rewrite (issued_method _ _ _ Hi) in Hm.
  rewrite (issued_method _ _ _ Hi') in Hm'.
  destruct i; try discriminate Hm; clear Hm.
  all: destruct i'; try discriminate Hm'; clear Hm'.
  all: try reflexivity.
  all: first [ apply signin_issued_path in Hi
             | apply signup_issued_path in Hi
             | read_issued Hi; cbn [c_path] in Hp ].
  all: first [ apply signin_issued_path in Hi'
             | apply signup_issued_path in Hi'
             | read_issued Hi'; cbn [c_path] in Hp ].
  all: rewrite ?Hi, ?Hi' in Hp.
  all: discriminate Hp.
Qed.

Lemma post_path_determines_binding_witness :
  binding_of (InvUpdate "u123" VNull) =
  binding_of (InvUpdate "u123" (VObj ∅)).
Proof.
  apply (post_path_determines_binding VUndefined VNull
           (InvUpdate "u123" VNull) (InvUpdate "u123" (VObj ∅))
           (Call POST "/api/2/user/u123" (Some VNull))
           (Call POST "/api/2/user/u123" (Some (VObj ∅))));
    reflexivity.
Defined.

Lemma signin_issued_explicit (this identifier redirectUri context : value) :
  is_undefined redirectUri = false ->
  issued this (InvSignin identifier redirectUri context) =
  [Call POST "/api/2/signin"
     (Some (VObj {[ "identifier" := identifier;
                    "redirectUri" := redirectUri;
                    "context" := context ]}))].
Proof. intros Hr. destruct redirectUri; (discriminate Hr || reflexivity). Qed.

Lemma signup_issued_explicit (this email password redirectUri : value) :
  is_undefined redirectUri = false ->
  issued this (InvSignup email password redirectUri) =
  [Call POST "/api/2/signup"
     (Some (VObj {[ "email" := email;
                    "password" := password;
                    "redirectUri" := redirectUri ]}))].
Proof. intros Hr. destruct redirectUri; (discriminate Hr || reflexivity). Qed.

Lemma singleton_call_eq (c1 c2 : call) :
  [c1] = [c2] -> c_path c1 = c_path c2 ∧ c_arg c1 = c_arg c2.
Proof. by intros [= ->]. Qed.

Lemma object_argument_lookup (m m' : gmap string value) (k : string) :
  Some (VObj m) = Some (VObj m') -> m !! k = m' !! k.
Proof. by intros [= ->]. Qed.

(** X10.  The call tells the arguments.  Two invocations of one binding
    that send the same call were given the same arguments, provided both
    supplied their [redirectUri] (so no default was read) and the
    binding is neither [getAll], which merges its two arguments, nor
    [triggerVerify], which joins two path parameters. *)
Theorem request_determines_arguments :
  ∀ (this this' : value) (i i' : invocation) (c : call),
    issued this i = [c] ->
    issued this' i' = [c] ->
    binding_of i = binding_of i' ->
    reads_this i = false ->
    reads_this i' = false ->
    binding_of i ≠ User.GetAll ->
    binding_of i ≠ User.TriggerVerify ->
    i = i'.
Proof.
  intros this this' i i' c Hi Hi' Hb Hr Hr' Hall Htrigger.
  rewrite <- Hi' in Hi. clear Hi' c.
  destruct i; try (by destruct Hall); try (by destruct Htrigger).
  all: destruct i'; try discriminate Hb.
  all: clear Hb Hall Htrigger.
  all: cbn [reads_this] in Hr, Hr'.
  all: rewrite ?signin_issued_explicit, ?signup_issued_explicit in Hi
         by assumption.
  all: clear Hr Hr'.
  all: unfold issued in Hi; cbn [invoke] in Hi.
  all: try reflexivity.
  all: apply singleton_call_eq in Hi as [Hp Ha].
  all: cbn [c_path c_arg] in Hp, Ha.
  all: repeat (injection Hp as Hp).
  all: repeat match type of Hp with
              | context [ "" +:+ ?u ] => change ("" +:+ u) with u in Hp
              end.
  all: try apply string_append_cancel_r in Hp.
  all: try match type of Hp with ?u = _ => is_var u; subst u end.
  all: try (pose proof (object_argument_lookup _ _ "identifier" Ha) as H;
            vm_compute in H; injection H as ->).
  all: try (pose proof (object_argument_lookup _ _ "redirectUri" Ha) as H;
            vm_compute in H; injection H as ->).
  all: try (pose proof (object_argument_lookup _ _ "context" Ha) as H;
            vm_compute in H; injection H as ->).
  all: try (pose proof (object_argument_lookup _ _ "email" Ha) as H;
            vm_compute in H; injection H as ->).
  all: try (pose proof (object_argument_lookup _ _ "password" Ha) as H;
            vm_compute in H; injection H as ->).
  all: try (pose proof (object_argument_lookup _ _ "jwt" Ha) as H;
            vm_compute in H; injection H as ->).
  all: try (pose proof (object_argument_lookup _ _ "id" Ha) as H;
            vm_compute in H; injection H as ->).
  all: try (injection Ha as ->).
  all: reflexivity.
Qed.

Lemma request_determines_arguments_witness :
  InvSignin (VStr "a@b.com") (VStr "https://y") VNull =
  InvSignin (VStr "a@b.com") (VStr "https://y") VNull.
Proof.
  apply (request_determines_arguments VUndefined (VObj ∅)
           (InvSignin (VStr "a@b.com") (VStr "https://y") VNull)
           (InvSignin (VStr "a@b.com") (VStr "https://y") VNull)
           (Call POST "/api/2/signin"
              (Some (VObj {[ "identifier" := VStr "a@b.com";
                             "redirectUri" := VStr "https://y";
                             "context" := VNull ]}))));
    first [ reflexivity | discriminate ].
Defined.

(** ** Edge cases of the merged query *)

(** X11.  [getAll] with one argument omitted (or [null]) and the other
    an object without an own [__proto__] sends that object's properties
    as they are; with both omitted it sends the empty query object, not
    a missing one. *)
Theorem getAll_omitted_arguments :
  ∀ (W R : Type) (api : Api W R),
    (∀ (criteria : gmap string value) (filters : value),
       criteria !! "__proto__" = None →
       nullish filters = true →
       User.getAll api (VObj criteria) filters =
       api_get api "/api/2/users" (Some (VObj criteria)))
    ∧
    (∀ (criteria : value) (filters : gmap string value),
       filters !! "__proto__" = None →
       nullish criteria = true →
       User.getAll api criteria (VObj filters) =
       api_get api "/api/2/users" (Some (VObj filters)))
    ∧
    User.getAll api VUndefined VUndefined =
    api_get api "/api/2/users" (Some (VObj ∅)).
Proof.
  intros W R api. repeat split.
  - intros criteria filters Hproto Hf. unfold User.getAll.
    destruct filters; try discriminate Hf;
      (rewrite object_assign_two_plain; [| exact Hproto | reflexivity]);
      cbn [own_props]; by rewrite (left_id_L ∅ (∪)).
  - intros criteria filters Hproto Hc. unfold User.getAll.
    destruct criteria; try discriminate Hc;
      (rewrite object_assign_two_plain; [| reflexivity | exact Hproto]);
      cbn [own_props]; by rewrite (right_id_L ∅ (∪)).
Qed.

(** ** Several calls in a row *)

Lemma invoke_mock_issued {R : Type} (respond : list call -> call -> R)
    (fields : gmap string value) (this : value) (i : invocation)
    (log : list call) :
  default_throws this i = false ->
  ∃ c, issued this i = [c] ∧
       invoke this (mock respond fields) i log =
       (Normal (respond log c), log ++ [c]).
Proof.
  intros Hd.
  destruct (invoke_performs this i Hd) as (c & Hc & _ & Hrun).
  exists c. split; [exact Hc |].
  rewrite Hrun. apply perform_mock.
Qed.

(** X14.  Bindings called one after another reach the transport one
    after another: when none of them throws, the log grows by one call
    per invocation, in the order of the invocations, each call the one
    the invocation sends on its own, and one result comes back per
    invocation.  Nothing is batched, merged or reordered. *)
Theorem run_all_calls :
  ∀ (R : Type) (respond : list call -> call -> R)
    (fields : gmap string value) (this : value)
    (calls : list invocation) (log : list call),
    Forall (fun i => default_throws this i = false) calls ->
    ∃ results,
      run_all this (mock respond fields) calls log =
      (Normal results, log ++ concat (map (issued this) calls))
      ∧ length results = length calls
      ∧ length (concat (map (issued this) calls)) = length calls.
Proof.
  intros R respond fields this calls.
  induction calls as [| i rest IH]; intros log Hok.
  - exists []. cbn. by rewrite app_nil_r.
  - apply Forall_cons in Hok as [Hi Hrest].
    destruct (invoke_mock_issued respond fields this i log Hi)
      as (c & Hc & Hrun).
    destruct (IH (log ++ [c]) Hrest) as (results & Hrun' & Hlen & Hlen').
    exists (respond log c :: results).
    cbn [run_all map concat]. unfold bind at 1. rewrite Hrun.
    unfold bind at 1. rewrite Hrun'. cbn [ret].
    rewrite Hc, <- app_assoc.
    split; [reflexivity |].
    split; [cbn; by rewrite Hlen | cbn; by rewrite Hlen'].
Qed.

(** Create a user, read the mail history, accept the agreements. *)
Lemma run_all_calls_witness :
  ∃ results,
    run_all VUndefined configured_api
      [InvSignupJwt (VStr "e30.e30.");
       InvGetMailHistory (VStr "u123") VUndefined;
       InvAcceptAgreements "u123"] [] =
    (Normal results,
     [] ++ concat (map (issued VUndefined)
             [InvSignupJwt (VStr "e30.e30.");
              InvGetMailHistory (VStr "u123") VUndefined;
              InvAcceptAgreements "u123"]))
    ∧ length results = 3
    ∧ length (concat (map (issued VUndefined)
                [InvSignupJwt (VStr "e30.e30.");
                 InvGetMailHistory (VStr "u123") VUndefined;
                 InvAcceptAgreements "u123"])) = 3.
Proof.
  apply (run_all_calls unit (fun _ _ => tt)
           {[ "redirectUri" := VStr "https://x" ]} VUndefined
           [InvSignupJwt (VStr "e30.e30.");
            InvGetMailHistory (VStr "u123") VUndefined;
            InvAcceptAgreements "u123"] []).
  repeat constructor.
Defined.

(** X15.  A binding that throws ends the run: the calls made before it
    stay made, and the invocations after it never reach the
    transport. *)
Theorem run_all_stops_at_throw :
  ∀ (R : Type) (respond : list call -> call -> R)
    (fields : gmap string value) (this : value)
    (before : list invocation) (i : invocation) (after : list invocation)
    (log : list call),
    Forall (fun i => default_throws this i = false) before ->
    default_throws this i = true ->
    run_all this (mock respond fields) (before ++ i :: after) log =
    (Throw TypeError, log ++ concat (map (issued this) before)).
Proof.
  intros R respond fields this before i after.
  induction before as [| j rest IH]; intros log Hok Hi.
  - cbn [app run_all map concat]. unfold bind at 1.
    rewrite invoke_throws by exact Hi. by rewrite app_nil_r.
  - apply Forall_cons in Hok as [Hj Hrest].
    destruct (invoke_mock_issued respond fields this j log Hj)
      as (c & Hc & Hrun).
    cbn [app run_all map concat]. unfold bind at 1. rewrite Hrun.
    unfold bind at 1. rewrite (IH (log ++ [c]) Hrest Hi).
    by rewrite Hc, <- app_assoc.
Qed.

(** [me], then a plain [signin] without [redirectUri], then [me]. *)
Lemma run_all_stops_at_throw_witness :
  run_all VUndefined configured_api
    ([InvMe] ++ InvSignin (VStr "a@b.com") VUndefined VUndefined :: [InvMe])
    [] =
  (Throw TypeError, [] ++ concat (map (issued VUndefined) [InvMe])).
Proof.
  apply (run_all_stops_at_throw unit (fun _ _ => tt)
           {[ "redirectUri" := VStr "https://x" ]} VUndefined
           [InvMe] (InvSignin (VStr "a@b.com") VUndefined VUndefined)
           [InvMe] []).
  - repeat constructor.
  - reflexivity.
Defined.
